(** * The non-reentrancy access-control check of [nonreentrant-check.py]

    A shallow embedding of the script: the part of the Python runtime it
    touches (standard output, an exception for attribute access on [None]),
    the part of the contract model it reads, and the routine
    [_check_access_controls] itself, followed by the properties of the
    report it prints. *)

From Stdlib Require Import List String Ascii Bool Lia Permutation.
Import ListNotations.

Local Open Scope list_scope.

(** ** The Python runtime the script relies on *)

Module Py.

(** The exception the script can run into: reading an attribute of an
    object that does not have it. *)
Inductive exn : Type :=
| AttributeError (type_name attribute : string).

Inductive outcome (A : Type) : Type :=
| Returned (a : A)
| Raised (e : exn).
Arguments Returned {A} a.
Arguments Raised {A} e.

(** [x in xs] on a list of strings: some element compares equal. *)
Definition contains (xs : list string) (x : string) : bool :=
  existsb (String.eqb x) xs.

(** Truth value of a list: non-empty. *)
Definition truthy {A : Type} (xs : list A) : bool :=
  match xs with
  | [] => false
  | _ :: _ => true
  end.

(** [any(p(x) for x in xs)]. *)
Definition any {A : Type} (p : A -> bool) (xs : list A) : bool :=
  existsb p xs.

Definition TAB : string := String "009"%char EmptyString.

End Py.

(** ** The contract model supplied by the analysis engine *)

Module Slither.

(** A modifier attached to a function; the script only ever takes its
    [str()]. *)
Record Modifier : Type := mkModifier { modifier_str : string }.

Record Function : Type := mkFunction {
  is_constructor : bool;
  view : bool;
  modifiers : list Modifier;
  canonical_name : string;
  name : string
}.

(** A contract: the name it is looked up by, the text [str()] gives for
    it, and its entry points in the engine's order. *)
Record Contract : Type := mkContract {
  contract_name : string;
  contract_str : string;
  functions_entry_points : list Function
}.

(** Modelled from the spec: the engine's lookup
    [ProjectModel.getContract(name) -> Contract | null], absent from the
    repository; the first contract with that name, or [None]. *)
Definition get_contract_from_name (contracts : list Contract) (n : string)
  : option Contract :=
  find (fun c => String.eqb (contract_name c) n) contracts.

End Slither.

Import Py Slither.

(** ** Program state and the monad of the script *)

(** What a run can observe or change: the loaded project (global
    [contracts]) and the lines printed so far, oldest first.  One element
    of [stdout] is the text of one [print] call. *)
Record World : Type := mkWorld {
  contracts : list Contract;
  stdout : list string
}.

Definition M (A : Type) : Type := World -> outcome A * World.

Definition ret {A : Type} (a : A) : M A := fun w => (Returned a, w).

Definition bind {A B : Type} (m : M A) (k : A -> M B) : M B :=
  fun w =>
    match m w with
    | (Returned a, w') => k a w'
    | (Raised e, w') => (Raised e, w')
    end.

Definition raise {A : Type} (e : exn) : M A := fun w => (Raised e, w).

Notation "x <- m ;; k" := (bind m (fun x => k))
  (at level 61, m at next level, right associativity).
Notation "m ;;; k" := (bind m (fun _ => k))
  (at level 61, right associativity).

Definition emit (line : string) (w : World) : World :=
  {| contracts := contracts w; stdout := stdout w ++ [line] |}.

Definition print (line : string) : M unit :=
  fun w => (Returned tt, emit line w).

(** [for x in xs: s = body(s, x)], the loop variable state [s] threaded
    through the iterations. *)
Fixpoint for_each {A S : Type} (xs : list A) (body : S -> A -> M S) (s : S)
  : M S :=
  match xs with
  | [] => ret s
  | x :: xs' => s' <- body s x ;; for_each xs' body s'
  end.

(** ** The script *)

(** [str(contract)] inside the f-string; [None] prints as its name. *)
Definition str_contract (contract : option Contract) : string :=
  match contract with
  | Some c => contract_str c
  | None => "None"%string
  end.

(** [contract.functions_entry_points]. *)
Definition get_functions_entry_points (contract : option Contract)
  : M (list Function) :=
  match contract with
  | Some c => ret (functions_entry_points c)
  | None => raise (AttributeError "NoneType" "functions_entry_points")
  end.

Definition header_line (contract : option Contract) : string :=
  ("### Check " ++ str_contract contract ++ " access controls")%string.

Definition flagged_line (function : Function) : string :=
  (TAB ++ "- " ++ canonical_name function
       ++ " should have an non re-eentrant modifier")%string.

Definition no_bug_line : string := (TAB ++ "- No bug found")%string.

(** The condition of the outer [if] of the loop:
    [not function.modifiers or (not any(str(x) in modifiers_access_controls ...))]. *)
Definition lacks_access_control (modifiers_access_controls : list string)
  (function : Function) : bool :=
  negb (truthy (modifiers function))
  || negb (any (fun x => contains modifiers_access_controls (modifier_str x))
             (modifiers function)).

(** One iteration of the loop; the local [no_bug_found] goes in and comes
    out, [continue] returns it as it is. *)
Definition loop_body (modifiers_access_controls whitelist : list string)
  (no_bug_found : bool) (function : Function) : M bool :=
  if is_constructor function then ret no_bug_found
  else if view function then ret no_bug_found
  else if lacks_access_control modifiers_access_controls function then
    if negb (contains whitelist (name function)) then
      print (flagged_line function) ;;;
      ret false
    else ret no_bug_found
  else ret no_bug_found.

Definition _check_access_controls (contract : option Contract)
  (modifiers_access_controls whitelist : list string) : M unit :=
  print (header_line contract) ;;;
  entry_points <- get_functions_entry_points contract ;;
  no_bug_found <-
    for_each entry_points (loop_body modifiers_access_controls whitelist) true ;;
  if no_bug_found then print no_bug_line else ret tt.

(** The module-level call, with the contract name and the two lists as the
    script gives them. *)
Definition invoke (contract_id : string)
  (modifiers_access_controls whitelist : list string) : M unit :=
  fun w =>
    _check_access_controls
      (get_contract_from_name (contracts w) contract_id)
      modifiers_access_controls whitelist w.

Definition main : M unit :=
  invoke "Vault" ["nonReentrant"%string]
    ["batchSwapGivenIn"; "batchSwapGivenOut"; "queryBatchSwapGivenIn";
     "queryBatchSwapGivenOut"; "queryBatchSwapHelper"]%string.

(** ** The report in the specification's words *)

(** The flag condition of the specification: not a constructor, not a view,
    no modifier named in [requiredModifierNames], name not whitelisted. *)
Definition flag_condition (requiredModifierNames whitelist : list string)
  (f : Function) : Prop :=
  is_constructor f = false
  /\ view f = false
  /\ (forall x, In x (modifiers f) ->
             ~ In (modifier_str x) requiredModifierNames)
  /\ ~ In (name f) whitelist.

Definition should_flag (requiredModifierNames whitelist : list string)
  (f : Function) : bool :=
  negb (is_constructor f)
  && negb (view f)
  && forallb (fun x => negb (contains requiredModifierNames (modifier_str x)))
       (modifiers f)
  && negb (contains whitelist (name f)).

Definition flagged_functions (c : Contract)
  (requiredModifierNames whitelist : list string) : list Function :=
  filter (should_flag requiredModifierNames whitelist)
    (functions_entry_points c).

Definition closing_lines (flagged : list Function) : list string :=
  match flagged with
  | [] => [no_bug_line]
  | _ :: _ => []
  end.

Definition expected_report (c : Contract)
  (requiredModifierNames whitelist : list string) : list string :=
  let flagged := flagged_functions c requiredModifierNames whitelist in
  header_line (Some c) :: map flagged_line flagged ++ closing_lines flagged.

(** What a run on contract [c] prints, read off the code: the standard
    output of [_check_access_controls] started with nothing loaded and
    nothing printed. *)
Definition report (c : Contract)
  (modifiers_access_controls whitelist : list string) : list string :=
  stdout (snd (_check_access_controls (Some c) modifiers_access_controls
                 whitelist {| contracts := []; stdout := [] |})).

Definition emit_all (lines : list string) (w : World) : World :=
  {| contracts := contracts w; stdout := stdout w ++ lines |}.

(** The flagged lines a list of entry points gives rise to. *)
Definition flagged_lines (mods wl : list string) (fs : list Function)
  : list string :=
  map flagged_line (filter (should_flag mods wl) fs).

(** Two lists with the same members. *)
Definition same_members (xs ys : list string) : Prop :=
  forall x, In x xs <-> In x ys.

(** ** A sample contract: scenario 1 of the specification *)

Module Sample.

Definition nonReentrant : Modifier := mkModifier "nonReentrant".
Definition authenticate : Modifier := mkModifier "authenticate".

Definition deposit : Function :=
  mkFunction false false [] "Vault.deposit()" "deposit".
Definition withdraw : Function :=
  mkFunction false false [authenticate; nonReentrant]
    "Vault.withdraw()" "withdraw".
Definition batchSwapGivenIn : Function :=
  mkFunction false false [] "Vault.batchSwapGivenIn()" "batchSwapGivenIn".
Definition constructor : Function :=
  mkFunction true false [] "Vault.constructor()" "constructor".
Definition balanceOf : Function :=
  mkFunction false true [] "Vault.balanceOf()" "balanceOf".

Definition Vault : Contract :=
  mkContract "Vault" "Vault"
    [deposit; withdraw; batchSwapGivenIn; constructor; balanceOf].

Definition guards : list string := ["nonReentrant"%string].
Definition exempt : list string :=
  ["batchSwapGivenIn"; "batchSwapGivenOut"; "queryBatchSwapGivenIn";
   "queryBatchSwapGivenOut"; "queryBatchSwapHelper"]%string.

Definition loaded : World := {| contracts := [Vault]; stdout := [] |}.
Definition nothing_loaded : World := {| contracts := []; stdout := [] |}.

End Sample.

(** ** Membership, truth values and strings *)

Lemma contains_true_iff (xs : list string) (x : string) :
  contains xs x = true <-> In x xs.
Proof.
  unfold contains. rewrite existsb_exists. split.
  - intros [y [Hin Heq]]. apply String.eqb_eq in Heq. now subst.
  - intros Hin. exists x. split; [assumption | apply String.eqb_refl].
Qed.

Lemma contains_false_iff (xs : list string) (x : string) :
  contains xs x = false <-> ~ In x xs.
Proof.
  rewrite <- contains_true_iff. destruct (contains xs x); split; intros H;
    try reflexivity; try discriminate; try (intros H'; discriminate).
  exfalso. now apply H.
Qed.

Lemma contains_same_members (xs ys : list string) (x : string) :
  same_members xs ys -> contains xs x = contains ys x.
Proof.
  intros Hsame. destruct (contains ys x) eqn:Hy.
  - apply contains_true_iff, Hsame, contains_true_iff, Hy.
  - apply contains_false_iff. intros Hin.
    apply Hsame, contains_true_iff in Hin. congruence.
Qed.

Lemma string_length_append (s t : string) :
  String.length (s ++ t) = String.length s + String.length t.
Proof. induction s as [| a s IH]; simpl; [reflexivity | now rewrite IH]. Qed.

Lemma flagged_line_not_no_bug (f : Function) : flagged_line f <> no_bug_line.
Proof.
  unfold flagged_line, no_bug_line, TAB. simpl. intros H.
  injection H as H. apply (f_equal String.length) in H.
  rewrite string_length_append in H. simpl in H. lia.
Qed.

Lemma header_line_not_no_bug (contract : option Contract) :
  header_line contract <> no_bug_line.
Proof. unfold header_line, no_bug_line, TAB. simpl. discriminate. Qed.

Lemma last_in_tail {A : Type} (x d : A) (l : list A) :
  l <> [] -> In (last (x :: l) d) l.
Proof.
  revert x. induction l as [| y l IH]; intros x Hne; [congruence |].
  destruct l as [| z l].
  - left. reflexivity.
  - right. apply (IH y). discriminate.
Qed.

(** ** What one iteration and the whole loop do *)

Lemma emit_all_nil (w : World) : emit_all [] w = w.
Proof. destruct w as [cs out]. unfold emit_all. simpl. now rewrite app_nil_r. Qed.

Lemma emit_as_emit_all (line : string) (w : World) :
  emit line w = emit_all [line] w.
Proof. reflexivity. Qed.

Lemma emit_all_app (l1 l2 : list string) (w : World) :
  emit_all l2 (emit_all l1 w) = emit_all (l1 ++ l2) w.
Proof. unfold emit_all. simpl. now rewrite app_assoc. Qed.

Lemma emit_changes_world (line : string) (w : World) : emit line w <> w.
Proof.
  intros H. apply (f_equal (fun x => List.length (stdout x))) in H.
  simpl in H. rewrite List.length_app in H. simpl in H. lia.
Qed.

Lemma should_flag_iff (req wl : list string) (f : Function) :
  should_flag req wl f = true <-> flag_condition req wl f.
Proof.
  unfold should_flag, flag_condition.
  rewrite !andb_true_iff, !negb_true_iff, forallb_forall, contains_false_iff.
  split.
  - intros [[[Hc Hv] Hm] Hw]. repeat split; try assumption.
    intros x Hx. apply contains_false_iff, negb_true_iff, Hm, Hx.
  - intros [Hc [Hv [Hm Hw]]]. repeat split; try assumption.
    intros x Hx. apply negb_true_iff, contains_false_iff, Hm, Hx.
Qed.

Lemma should_flag_false_iff (req wl : list string) (f : Function) :
  should_flag req wl f = false <-> ~ flag_condition req wl f.
Proof.
  rewrite <- should_flag_iff. destruct (should_flag req wl f); split;
    intros H; try reflexivity; try discriminate.
  exfalso. now apply H.
Qed.

(** The outer [if] of the loop tests just that no modifier is named in the
    list: the emptiness test before [or] adds nothing. *)
Lemma lacks_access_control_forallb (mods : list string) (f : Function) :
  lacks_access_control mods f
  = forallb (fun x => negb (contains mods (modifier_str x))) (modifiers f).
Proof.
  unfold lacks_access_control, any.
  induction (modifiers f) as [| x xs IH]; [reflexivity |].
  simpl. simpl in IH.
  destruct (contains mods (modifier_str x)); simpl; [reflexivity |].
  destruct xs as [| y ys]; [reflexivity | exact IH].
Qed.

Lemma loop_body_should_flag (mods wl : list string) (nb : bool)
  (f : Function) (w : World) :
  loop_body mods wl nb f w
  = if should_flag mods wl f
    then (Returned false, emit (flagged_line f) w)
    else (Returned nb, w).
Proof.
  unfold loop_body, should_flag.
  rewrite lacks_access_control_forallb.
  destruct (is_constructor f); [reflexivity |].
  destruct (view f); [reflexivity |].
  destruct (forallb _ (modifiers f)); [| reflexivity].
  destruct (contains wl (name f)); reflexivity.
Qed.

Lemma for_each_loop_body (mods wl : list string) (fs : list Function) :
  forall (nb : bool) (w : World),
    for_each fs (loop_body mods wl) nb w
    = (Returned (match filter (should_flag mods wl) fs with
                 | [] => nb
                 | _ :: _ => false
                 end),
       emit_all (map flagged_line (filter (should_flag mods wl) fs)) w).
Proof.
  induction fs as [| f fs IH]; intros nb w.
  - simpl. now rewrite emit_all_nil.
  - simpl. unfold bind. rewrite loop_body_should_flag.
    destruct (should_flag mods wl f).
    + rewrite IH. simpl. rewrite emit_as_emit_all, emit_all_app. simpl.
      destruct (filter _ fs); reflexivity.
    + apply IH.
Qed.

Lemma check_returns_expected (c : Contract) (mods wl : list string) (w : World) :
  _check_access_controls (Some c) mods wl w
  = (Returned tt, emit_all (expected_report c mods wl) w).
Proof.
  unfold _check_access_controls, expected_report, flagged_functions, bind.
  simpl. rewrite for_each_loop_body.
  destruct (filter (should_flag mods wl) (functions_entry_points c)) as [| g gs].
  - simpl. unfold print. now rewrite !emit_as_emit_all, !emit_all_app.
  - unfold ret, closing_lines. rewrite app_nil_r.
    now rewrite emit_as_emit_all, emit_all_app.
Qed.

Lemma report_is_expected (c : Contract) (mods wl : list string) :
  report c mods wl = expected_report c mods wl.
Proof. unfold report. now rewrite check_returns_expected. Qed.

Lemma check_on_None (mods wl : list string) (w : World) :
  _check_access_controls None mods wl w
  = (Raised (AttributeError "NoneType" "functions_entry_points"),
     emit "### Check None access controls" w).
Proof. reflexivity. Qed.

Lemma should_flag_same_members (mods mods' wl wl' : list string) (f : Function) :
  same_members mods mods' -> same_members wl wl' ->
  should_flag mods wl f = should_flag mods' wl' f.
Proof.
  intros Hm Hw. unfold should_flag.
  rewrite (contains_same_members wl wl' (name f) Hw).
  f_equal. f_equal.
  induction (modifiers f) as [| x xs IH]; [reflexivity |].
  simpl. now rewrite IH, (contains_same_members mods mods' _ Hm).
Qed.

Lemma filter_should_flag_skip (mods wl : list string) (f : Function)
  (pre post : list Function) :
  should_flag mods wl f = false ->
  filter (should_flag mods wl) (pre ++ f :: post)
  = filter (should_flag mods wl) (pre ++ post).
Proof. intros H. rewrite !filter_app. simpl. now rewrite H. Qed.

Lemma report_skip (mods wl : list string) (f : Function) (n s : string)
  (pre post : list Function) :
  should_flag mods wl f = false ->
  report (mkContract n s (pre ++ f :: post)) mods wl
  = report (mkContract n s (pre ++ post)) mods wl.
Proof.
  intros H. rewrite !report_is_expected.
  unfold expected_report, flagged_functions. simpl.
  now rewrite (filter_should_flag_skip mods wl f pre post H).
Qed.

Lemma report_with_flagged (mods wl : list string) (f : Function) (n s : string)
  (pre post : list Function) :
  should_flag mods wl f = true ->
  report (mkContract n s (pre ++ f :: post)) mods wl
  = header_line (Some (mkContract n s (pre ++ f :: post)))
      :: flagged_lines mods wl pre ++ flagged_line f :: flagged_lines mods wl post.
Proof.
  intros H. rewrite report_is_expected.
  unfold expected_report, flagged_functions, flagged_lines. simpl.
  rewrite filter_app. simpl. rewrite H.
  f_equal. rewrite map_app. simpl.
  destruct (filter (should_flag mods wl) pre); simpl; now rewrite app_nil_r.
Qed.

(** ** The sample run *)

Example sample_run :
  main Sample.loaded
  = (Returned tt,
     {| contracts := [Sample.Vault];
        stdout := ["### Check Vault access controls";
                   TAB ++ "- Vault.deposit() should have an non re-eentrant modifier"
                  ]%string |}).
Proof. reflexivity. Qed.

Example sample_run_all_guarded :
  report (mkContract "Vault" "Vault" [Sample.withdraw; Sample.balanceOf])
    Sample.guards Sample.exempt
  = ["### Check Vault access controls"; TAB ++ "- No bug found"]%string.
Proof. reflexivity. Qed.

(** ** Properties of the check *)

(** C1: the iteration of the loop for an entry-point function prints the
    flagged line, the text
    [<tab>- <canonical name> should have an non re-eentrant modifier] with
    the function's canonical name in it (and clears [no_bug_found]), if and
    only if the function is not a constructor, not a view, has no modifier
    whose string is in the required list and its name is not whitelisted;
    otherwise the iteration changes nothing.  In the report of a contract
    that text stands at the function's place in that case, and the report
    is the one of the contract without the function in the other. *)
Theorem flag_condition_exact (mods wl : list string) (nb : bool)
  (f : Function) (w : World) :
  (loop_body mods wl nb f w
   = (Returned false,
      {| contracts := contracts w;
         stdout := stdout w
                   ++ [String "009"%char
                         ("- " ++ canonical_name f
                          ++ " should have an non re-eentrant modifier")%string]
      |})
   <-> flag_condition mods wl f)
  /\ (loop_body mods wl nb f w = (Returned nb, w)
      <-> ~ flag_condition mods wl f)
  /\ (forall n s pre post,
         flag_condition mods wl f ->
         report (mkContract n s (pre ++ f :: post)) mods wl
         = ("### Check " ++ s ++ " access controls")%string
             :: flagged_lines mods wl pre
                ++ String "009"%char
                     ("- " ++ canonical_name f
                      ++ " should have an non re-eentrant modifier")%string
                   :: flagged_lines mods wl post)
  /\ (forall n s pre post,
         ~ flag_condition mods wl f ->
         report (mkContract n s (pre ++ f :: post)) mods wl
         = report (mkContract n s (pre ++ post)) mods wl)
  /\ (exists before after,
         flagged_line f = (before ++ canonical_name f ++ after)%string
         /\ before = String "009"%char "- "
         /\ after = " should have an non re-eentrant modifier"%string).
Proof.
  assert (T : String "009"%char
                ("- " ++ canonical_name f
                 ++ " should have an non re-eentrant modifier")%string
              = flagged_line f) by reflexivity.
  rewrite !T.
  change {| contracts := contracts w;
            stdout := stdout w ++ [flagged_line f] |}
    with (emit (flagged_line f) w).
  rewrite loop_body_should_flag.
  assert (N : exists before after,
             flagged_line f = (before ++ canonical_name f ++ after)%string
             /\ before = String "009"%char "- "
             /\ after = " should have an non re-eentrant modifier"%string).
  { exists (String "009"%char "- "),
      " should have an non re-eentrant modifier"%string.
    repeat split. }
  destruct (should_flag mods wl f) eqn:E.
  - assert (Hc : flag_condition mods wl f) by now apply should_flag_iff.
    split; [| split; [| split; [| split]]].
    + split; [intros _; exact Hc | reflexivity].
    + split; [| contradiction].
      intros H. exfalso. apply (emit_changes_world (flagged_line f) w).
      congruence.
    + intros n s pre post _.
      now apply (report_with_flagged mods wl f n s pre post).
    + contradiction.
    + exact N.
  - assert (Hc : ~ flag_condition mods wl f) by now apply should_flag_false_iff.
    split; [| split; [| split; [| split]]].
    + split; [| contradiction].
      intros H. exfalso. apply (emit_changes_world (flagged_line f) w).
      congruence.
    + split; [intros _; exact Hc | reflexivity].
    + contradiction.
    + intros n s pre post _. now apply report_skip.
    + exact N.
Qed.

Lemma flag_condition_exact_witness :
  loop_body Sample.guards Sample.exempt true Sample.deposit Sample.loaded
  = (Returned false, emit (flagged_line Sample.deposit) Sample.loaded)
  /\ loop_body Sample.guards Sample.exempt true Sample.withdraw Sample.loaded
     = (Returned true, Sample.loaded).
Proof.
  split.
  - apply (proj1 (flag_condition_exact Sample.guards Sample.exempt true
                    Sample.deposit Sample.loaded)).
    apply should_flag_iff. reflexivity.
  - apply (proj1 (proj2 (flag_condition_exact Sample.guards Sample.exempt true
                           Sample.withdraw Sample.loaded))).
    apply should_flag_false_iff. reflexivity.
Defined.

(** C2, as the specification has it, fails: with no contract of the
    requested name loaded the run does print a line, the header with the
    text [None] in it, before it fails. *)
Lemma missing_contract_header_is_printed :
  get_contract_from_name (contracts Sample.nothing_loaded) "Vault" = None
  /\ stdout Sample.nothing_loaded = []
  /\ main Sample.nothing_loaded
     = (Raised (AttributeError "NoneType" "functions_entry_points"),
        {| contracts := [];
           stdout := ["### Check None access controls"%string] |}).
Proof. repeat split. Qed.

(** C2, amended: when the lookup of the requested name gives [None], the run
    prints exactly one line, the header naming [None], and then fails with
    the attribute error on [functions_entry_points]; no flagged line and no
    closing line is printed. *)
Theorem missing_contract_fails_after_header (contract_id : string)
  (mods wl : list string) (w : World) :
  get_contract_from_name (contracts w) contract_id = None ->
  invoke contract_id mods wl w
  = (Raised (AttributeError "NoneType" "functions_entry_points"),
     {| contracts := contracts w;
        stdout := stdout w ++ ["### Check None access controls"%string] |}).
Proof. intros H. unfold invoke. rewrite H. apply check_on_None. Qed.

Lemma missing_contract_fails_after_header_witness :
  invoke "Vault" Sample.guards Sample.exempt Sample.nothing_loaded
  = (Raised (AttributeError "NoneType" "functions_entry_points"),
     {| contracts := [];
        stdout := ["### Check None access controls"%string] |}).
Proof.
  apply (missing_contract_fails_after_header "Vault" Sample.guards
           Sample.exempt Sample.nothing_loaded).
  reflexivity.
Defined.

(** C3: the report is the header, the flagged lines, and then the single
    line [<tab>- No bug found] exactly when no function was flagged,
    nothing more otherwise: the report's last line is that text if and only
    if the flagged functions are none; and a contract without entry points
    gives the header, [### Check <contract> access controls], followed by
    [<tab>- No bug found]. *)
Theorem no_bug_line_iff_nothing_flagged (c : Contract) (mods wl : list string) :
  (flagged_functions c mods wl = [] /\
   report c mods wl
   = [("### Check " ++ contract_str c ++ " access controls")%string;
      String "009"%char "- No bug found"]
   \/
   flagged_functions c mods wl <> [] /\
   report c mods wl
   = ("### Check " ++ contract_str c ++ " access controls")%string
       :: map flagged_line (flagged_functions c mods wl))
  /\ (last (report c mods wl) EmptyString = String "009"%char "- No bug found"
      <-> flagged_functions c mods wl = [])
  /\ (forall w,
         fst (for_each (functions_entry_points c) (loop_body mods wl) true w)
         = Returned true
         <-> flagged_functions c mods wl = [])
  /\ report (mkContract (contract_name c) (contract_str c) []) mods wl
     = [("### Check " ++ contract_str c ++ " access controls")%string;
        String "009"%char "- No bug found"]
  /\ (forall g, In g (flagged_functions c mods wl) ->
                flagged_line g <> String "009"%char "- No bug found").
Proof.
  change (String "009"%char "- No bug found") with no_bug_line.
  change ("### Check " ++ contract_str c ++ " access controls")%string
    with (header_line (Some c)).
  rewrite report_is_expected. unfold expected_report.
  split; [| split; [| split; [| split]]].
  - destruct (flagged_functions c mods wl) as [| g gs] eqn:E.
    + left. split; reflexivity.
    + right. split; [discriminate |]. simpl. now rewrite app_nil_r.
  - destruct (flagged_functions c mods wl) as [| g gs] eqn:E.
    + split; reflexivity.
    + split; [| discriminate]. intros H. exfalso.
      cbv zeta in H. unfold closing_lines in H. rewrite app_nil_r in H.
      assert (Hin : In no_bug_line (map flagged_line (g :: gs))).
      { rewrite <- H. apply last_in_tail. discriminate. }
      apply in_map_iff in Hin. destruct Hin as [h [Hh _]].
      now apply (flagged_line_not_no_bug h).
  - intros w. rewrite for_each_loop_body. unfold flagged_functions.
    destruct (filter (should_flag mods wl) (functions_entry_points c));
      simpl; split; intros H; try reflexivity; discriminate.
  - reflexivity.
  - intros g _. apply flagged_line_not_no_bug.
Qed.

(** C4: the iteration for a constructor or a view function prints nothing
    and leaves [no_bug_found] as it was, whatever its modifiers, its name
    and the two lists; the function is not among the flagged ones of any
    contract, and the report is the same as without it. *)
Theorem constructor_and_view_exempt (mods wl : list string) (f : Function) :
  is_constructor f = true \/ view f = true ->
  (forall nb w, loop_body mods wl nb f w = (Returned nb, w))
  /\ (forall c, ~ In f (flagged_functions c mods wl))
  /\ (forall n s pre post,
         report (mkContract n s (pre ++ f :: post)) mods wl
         = report (mkContract n s (pre ++ post)) mods wl).
Proof.
  intros H.
  assert (E : should_flag mods wl f = false).
  { unfold should_flag. destruct H as [H | H]; rewrite H; simpl;
      [reflexivity | now rewrite andb_false_r]. }
  split; [| split].
  - intros nb w. rewrite loop_body_should_flag. now rewrite E.
  - intros c Hin. apply filter_In in Hin. destruct Hin as [_ Hin]. congruence.
  - intros n s pre post. now apply report_skip.
Qed.

Lemma constructor_and_view_exempt_witness :
  (forall nb w,
      loop_body Sample.guards Sample.exempt nb Sample.constructor w
      = (Returned nb, w))
  /\ (forall nb w,
         loop_body Sample.guards Sample.exempt nb Sample.balanceOf w
         = (Returned nb, w)).
Proof.
  split.
  - apply (constructor_and_view_exempt Sample.guards Sample.exempt
             Sample.constructor).
    left. reflexivity.
  - apply (constructor_and_view_exempt Sample.guards Sample.exempt
             Sample.balanceOf).
    right. reflexivity.
Defined.

(** C5: for a function with at least one modifier whose string is in the
    required list the test of the outer [if] is false and the iteration
    prints nothing and keeps [no_bug_found], whether or not its name is
    whitelisted; for a function without modifiers that test is true
    whatever the required list is, so that such a function, when it is
    neither constructor nor view nor whitelisted, is flagged. *)
Theorem guarded_functions_pass (mods wl : list string) (f : Function) :
  ((exists x, In x (modifiers f) /\ In (modifier_str x) mods) ->
   lacks_access_control mods f = false
   /\ (forall nb w, loop_body mods wl nb f w = (Returned nb, w))
   /\ (forall n s pre post,
          report (mkContract n s (pre ++ f :: post)) mods wl
          = report (mkContract n s (pre ++ post)) mods wl))
  /\ (modifiers f = [] ->
      lacks_access_control mods f = true
      /\ (is_constructor f = false -> view f = false -> ~ In (name f) wl ->
          forall nb w,
            loop_body mods wl nb f w
            = (Returned false, emit (flagged_line f) w))).
Proof.
  split.
  - intros [x [Hx Hm]].
    assert (L : lacks_access_control mods f = false).
    { rewrite lacks_access_control_forallb.
      destruct (forallb _ (modifiers f)) eqn:E; [| reflexivity].
      rewrite forallb_forall in E. specialize (E x Hx).
      apply contains_true_iff in Hm. rewrite Hm in E. discriminate. }
    assert (E : should_flag mods wl f = false).
    { unfold should_flag. rewrite <- lacks_access_control_forallb, L.
      now rewrite andb_false_r. }
    split; [exact L | split].
    + intros nb w. rewrite loop_body_should_flag. now rewrite E.
    + intros n s pre post. now apply report_skip.
  - intros Hnil. split.
    + unfold lacks_access_control. now rewrite Hnil.
    + intros Hc Hv Hw nb w. rewrite loop_body_should_flag.
      unfold should_flag. rewrite Hc, Hv, Hnil. simpl.
      apply contains_false_iff in Hw. now rewrite Hw.
Qed.

Lemma guarded_functions_pass_witness :
  (forall nb w,
      loop_body Sample.guards ["withdraw"%string] nb Sample.withdraw w
      = (Returned nb, w))
  /\ lacks_access_control Sample.guards Sample.deposit = true.
Proof.
  split.
  - apply (proj1 (guarded_functions_pass Sample.guards ["withdraw"%string]
                    Sample.withdraw)).
    exists Sample.nonReentrant. split.
    + right. left. reflexivity.
    + left. reflexivity.
  - apply (proj2 (guarded_functions_pass Sample.guards ["withdraw"%string]
                    Sample.deposit)).
    reflexivity.
Defined.

(** C6: for a function that is neither constructor nor view and has no
    modifier whose string is in the required list, the outer [if] is
    entered, and if its name is whitelisted the iteration prints nothing and
    leaves [no_bug_found] as it was. *)
Theorem whitelist_overrides_missing_guard (mods wl : list string)
  (f : Function) :
  is_constructor f = false ->
  view f = false ->
  (forall x, In x (modifiers f) -> ~ In (modifier_str x) mods) ->
  In (name f) wl ->
  lacks_access_control mods f = true
  /\ (forall nb w, loop_body mods wl nb f w = (Returned nb, w))
  /\ (forall n s pre post,
         report (mkContract n s (pre ++ f :: post)) mods wl
         = report (mkContract n s (pre ++ post)) mods wl).
Proof.
  intros Hc Hv Hm Hw.
  assert (L : lacks_access_control mods f = true).
  { rewrite lacks_access_control_forallb. apply forallb_forall.
    intros x Hx. apply negb_true_iff, contains_false_iff, Hm, Hx. }
  assert (E : should_flag mods wl f = false).
  { unfold should_flag. apply contains_true_iff in Hw. rewrite Hw.
    now rewrite andb_false_r. }
  split; [exact L | split].
  - intros nb w. rewrite loop_body_should_flag. now rewrite E.
  - intros n s pre post. now apply report_skip.
Qed.

Lemma whitelist_overrides_missing_guard_witness :
  lacks_access_control Sample.guards Sample.batchSwapGivenIn = true
  /\ (forall nb w,
         loop_body Sample.guards Sample.exempt nb Sample.batchSwapGivenIn w
         = (Returned nb, w)).
Proof.
  destruct (whitelist_overrides_missing_guard Sample.guards Sample.exempt
              Sample.batchSwapGivenIn) as [L [B _]].
  - reflexivity.
  - reflexivity.
  - intros x Hx. destruct Hx.
  - left. reflexivity.
  - split; [exact L | exact B].
Defined.

(** C7: the lines the loop prints are the flagged lines of the entry points
    that satisfy the flag condition, one for each, in the order of the
    entry points; the report is the header, those lines and the closing
    lines. *)
Theorem flagged_lines_follow_entry_points (c : Contract)
  (mods wl : list string) (w : World) :
  stdout (snd (for_each (functions_entry_points c) (loop_body mods wl) true w))
  = stdout w ++ map flagged_line (flagged_functions c mods wl)
  /\ report c mods wl
     = header_line (Some c)
         :: map flagged_line (flagged_functions c mods wl)
            ++ closing_lines (flagged_functions c mods wl)
  /\ flagged_functions c mods wl
     = filter (should_flag mods wl) (functions_entry_points c)
  /\ (forall f, should_flag mods wl f = true <-> flag_condition mods wl f)
  /\ List.length (map flagged_line (flagged_functions c mods wl))
     = List.length (filter (should_flag mods wl) (functions_entry_points c)).
Proof.
  split; [| split; [| split; [| split]]].
  - rewrite for_each_loop_body. reflexivity.
  - apply report_is_expected.
  - reflexivity.
  - intros f. apply should_flag_iff.
  - apply length_map.
Qed.

(** C8: on a contract (not [None]) the check always returns, and what it
    appends to the standard output is [report], a function of the contract
    and the two lists alone: two runs, from whatever worlds, append the same
    lines, and so does a second run right after the first. *)
Theorem report_is_deterministic (c : Contract) (mods wl : list string)
  (w1 w2 : World) :
  _check_access_controls (Some c) mods wl w1
  = (Returned tt,
     {| contracts := contracts w1;
        stdout := stdout w1 ++ report c mods wl |})
  /\ _check_access_controls (Some c) mods wl w2
     = (Returned tt,
        {| contracts := contracts w2;
           stdout := stdout w2 ++ report c mods wl |})
  /\ (_check_access_controls (Some c) mods wl ;;;
      _check_access_controls (Some c) mods wl) w1
     = (Returned tt,
        {| contracts := contracts w1;
           stdout := stdout w1 ++ report c mods wl ++ report c mods wl |}).
Proof.
  rewrite report_is_expected.
  split; [| split].
  - apply check_returns_expected.
  - apply check_returns_expected.
  - unfold bind. rewrite !check_returns_expected, emit_all_app. reflexivity.
Qed.

(** C9: a run of the check, on a contract or on [None], leaves the loaded
    contract model as it was; all it does to the world is to append lines
    to the standard output.  The same holds of the script's own call. *)
Theorem contract_model_is_not_mutated (contract : option Contract)
  (mods wl : list string) (w : World) :
  contracts (snd (_check_access_controls contract mods wl w)) = contracts w
  /\ (exists lines,
         snd (_check_access_controls contract mods wl w)
         = {| contracts := contracts w; stdout := stdout w ++ lines |})
  /\ contracts (snd (main w)) = contracts w.
Proof.
  assert (H : forall o m l,
             exists lines,
               snd (_check_access_controls o m l w) = emit_all lines w).
  { intros [c |] m l.
    - exists (expected_report c m l). now rewrite check_returns_expected.
    - exists ["### Check None access controls"%string].
      now rewrite check_on_None. }
  split; [| split].
  - destruct (H contract mods wl) as [lines E]. now rewrite E.
  - destruct (H contract mods wl) as [lines E]. exists lines. exact E.
  - unfold main, invoke.
    destruct (H (get_contract_from_name (contracts w) "Vault")
                ["nonReentrant"%string]
                ["batchSwapGivenIn"; "batchSwapGivenOut";
                 "queryBatchSwapGivenIn"; "queryBatchSwapGivenOut";
                 "queryBatchSwapHelper"]%string) as [lines E].
    now rewrite E.
Qed.

(** Reordering a list, or repeating one of its elements, keeps its
    members. *)
Lemma Permutation_same_members (xs ys : list string) :
  Permutation xs ys -> same_members xs ys.
Proof.
  intros P x. split; apply Permutation_in; [exact P | now apply Permutation_sym].
Qed.

Lemma duplicate_same_members (x : string) (xs : list string) :
  In x xs -> same_members (x :: xs) xs.
Proof.
  intros Hin y. split; [intros [E | H]; [now subst | exact H] | now right].
Qed.

Lemma same_members_sym (xs ys : list string) :
  same_members xs ys -> same_members ys xs.
Proof. intros H x. symmetry. apply H. Qed.

(** C10: the two lists count only through their members: with lists of the
    same members in place of them (a permutation, or one with repeated
    elements) the run is the same, and so is the report. *)
Theorem lists_matter_only_by_membership (contract : option Contract)
  (mods mods' wl wl' : list string) :
  same_members mods mods' ->
  same_members wl wl' ->
  (forall w,
      _check_access_controls contract mods wl w
      = _check_access_controls contract mods' wl' w)
  /\ (forall c, report c mods wl = report c mods' wl').
Proof.
  intros Hm Hw.
  assert (E : forall c, expected_report c mods wl = expected_report c mods' wl').
  { intros c. unfold expected_report, flagged_functions.
    rewrite (filter_ext (should_flag mods wl) (should_flag mods' wl')
               (fun f => should_flag_same_members mods mods' wl wl' f Hm Hw)).
    reflexivity. }
  split.
  - intros w. destruct contract as [c |].
    + now rewrite !check_returns_expected, E.
    + reflexivity.
  - intros c. now rewrite !report_is_expected.
Qed.

Lemma lists_matter_only_by_membership_witness :
  report Sample.Vault Sample.guards Sample.exempt
  = report Sample.Vault
      ["nonReentrant"; "nonReentrant"]%string (rev Sample.exempt).
Proof.
  apply (lists_matter_only_by_membership (Some Sample.Vault)
           Sample.guards ["nonReentrant"; "nonReentrant"]%string
           Sample.exempt (rev Sample.exempt)).
  - apply same_members_sym, duplicate_same_members. left. reflexivity.
  - apply Permutation_same_members, Permutation_rev.
Defined.

(** ** Further properties of the check *)

Lemma string_append_cancel_r (s s' t : string) :
  (s ++ t)%string = (s' ++ t)%string -> s = s'.
Proof.
  revert s'. induction s as [| a s IH]; intros [| a' s'] H; simpl in H.
  - reflexivity.
  - exfalso. apply (f_equal String.length) in H. simpl in H.
    rewrite string_length_append in H. lia.
  - exfalso. apply (f_equal String.length) in H. simpl in H.
    rewrite string_length_append in H. lia.
  - injection H as Ha Hs. subst a'. f_equal. now apply IH.
Qed.

Lemma flagged_line_eq_iff (f g : Function) :
  flagged_line f = flagged_line g <-> canonical_name f = canonical_name g.
Proof.
  unfold flagged_line, TAB. simpl. split.
  - intros H. injection H as H. now apply string_append_cancel_r in H.
  - intros H. now rewrite H.
Qed.

Lemma header_line_eq_iff (c d : Contract) :
  header_line (Some c) = header_line (Some d) <-> contract_str c = contract_str d.
Proof.
  unfold header_line. simpl. split.
  - intros H. injection H as H. now apply string_append_cancel_r in H.
  - intros H. now rewrite H.
Qed.

Lemma header_line_not_flagged (contract : option Contract) (f : Function) :
  header_line contract <> flagged_line f.
Proof. unfold header_line, flagged_line, TAB. simpl. discriminate. Qed.

Lemma map_flagged_line_eq_iff (fs gs : list Function) :
  map flagged_line fs = map flagged_line gs
  <-> map canonical_name fs = map canonical_name gs.
Proof.
  revert gs. induction fs as [| f fs IH]; intros [| g gs];
    try (split; reflexivity); try (split; discriminate).
  split; intros H.
  - assert (Hh : flagged_line f = flagged_line g)
      by exact (f_equal (hd (flagged_line f)) H).
    assert (Ht : map flagged_line fs = map flagged_line gs)
      by exact (f_equal (@tl string) H).
    simpl. f_equal; [now apply flagged_line_eq_iff | now apply IH].
  - assert (Hh : canonical_name f = canonical_name g)
      by exact (f_equal (hd (canonical_name f)) H).
    assert (Ht : map canonical_name fs = map canonical_name gs)
      by exact (f_equal (@tl string) H).
    simpl. f_equal; [now apply flagged_line_eq_iff | now apply IH].
Qed.

Lemma emit_all_changes_world (line : string) (lines : list string) (w : World) :
  emit_all (line :: lines) w <> w.
Proof.
  intros H. apply (f_equal (fun x => List.length (stdout x))) in H.
  simpl in H. rewrite List.length_app in H. simpl in H. lia.
Qed.

Lemma filter_length_mono {A : Type} (p q : A -> bool) (l : list A) :
  (forall x, p x = true -> q x = true) ->
  List.length (filter p l) <= List.length (filter q l).
Proof.
  intros Hpq. induction l as [| x l IH]; simpl; [lia |].
  destruct (p x) eqn:Ep.
  - rewrite (Hpq x Ep). simpl. lia.
  - destruct (q x); simpl; lia.
Qed.

Lemma should_flag_antitone (mods mods' wl wl' : list string) (f : Function) :
  incl mods mods' -> incl wl wl' ->
  should_flag mods' wl' f = true -> should_flag mods wl f = true.
Proof.
  intros Hm Hw H. apply should_flag_iff in H. apply should_flag_iff.
  destruct H as [Hc [Hv [Hx Hn]]]. repeat split; try assumption.
  - intros x Hin Hmem. apply (Hx x Hin), Hm, Hmem.
  - intros Hmem. apply Hn, Hw, Hmem.
Qed.

(** X1: the emptiness test in front of [or] in the outer [if] is
    redundant: the condition is that of [not any(...)] alone, and it holds
    exactly when no modifier of the function has its string in the list. *)
Theorem emptiness_test_is_redundant (mods : list string) (f : Function) :
  lacks_access_control mods f
  = negb (any (fun x => contains mods (modifier_str x)) (modifiers f))
  /\ (lacks_access_control mods f = true
      <-> forall x, In x (modifiers f) -> ~ In (modifier_str x) mods).
Proof.
  split.
  - unfold lacks_access_control, any.
    destruct (modifiers f) as [| x xs]; [reflexivity |].
    simpl. reflexivity.
  - rewrite lacks_access_control_forallb, forallb_forall. split.
    + intros H x Hx. apply contains_false_iff, negb_true_iff, H, Hx.
    + intros H x Hx. apply negb_true_iff, contains_false_iff, H, Hx.
Qed.

(** X2: lengthening either list never adds a finding.  If every required
    name and every whitelisted name of one configuration is also in a
    second one, then a function the second run flags is flagged by the
    first, the second run has no more flagged lines than the first, and a
    report of the first that says [No bug found] is also the report of the
    second. *)
Theorem longer_lists_flag_less (mods mods' wl wl' : list string) :
  incl mods mods' ->
  incl wl wl' ->
  (forall nb f w,
      loop_body mods' wl' nb f w = (Returned false, emit (flagged_line f) w) ->
      loop_body mods wl nb f w = (Returned false, emit (flagged_line f) w))
  /\ (forall c,
         List.length (report c mods' wl') <= List.length (report c mods wl))
  /\ (forall c,
         report c mods wl = [header_line (Some c); no_bug_line] ->
         report c mods' wl' = [header_line (Some c); no_bug_line]).
Proof.
  intros Hm Hw.
  assert (A : forall f, should_flag mods' wl' f = true ->
                        should_flag mods wl f = true).
  { intros f. now apply should_flag_antitone. }
  split; [| split].
  - intros nb f w. rewrite !loop_body_should_flag.
    destruct (should_flag mods' wl' f) eqn:E'.
    + now rewrite (A f E').
    + intros H. exfalso. apply (emit_changes_world (flagged_line f) w).
      congruence.
  - intros c. rewrite !report_is_expected.
    unfold expected_report, flagged_functions. simpl.
    rewrite !List.length_app, !length_map.
    pose proof (filter_length_mono _ _ (functions_entry_points c) A) as L.
    destruct (filter (should_flag mods' wl') (functions_entry_points c));
      destruct (filter (should_flag mods wl) (functions_entry_points c));
      simpl in *; lia.
  - intros c. rewrite !report_is_expected.
    unfold expected_report, flagged_functions.
    pose proof (filter_length_mono _ _ (functions_entry_points c) A) as L.
    destruct (filter (should_flag mods wl) (functions_entry_points c))
      as [| g gs].
    + destruct (filter (should_flag mods' wl') (functions_entry_points c));
        [reflexivity | simpl in L; lia].
    + simpl. rewrite app_nil_r. intros H. exfalso.
      apply (f_equal (@tl string)) in H.
      apply (f_equal (hd EmptyString)) in H.
      now apply (flagged_line_not_no_bug g).
Qed.

Lemma longer_lists_flag_less_witness :
  List.length (report Sample.Vault Sample.guards Sample.exempt)
  <= List.length (report Sample.Vault [] ["batchSwapGivenIn"%string]).
Proof.
  apply (longer_lists_flag_less [] Sample.guards
           ["batchSwapGivenIn"%string] Sample.exempt).
  - intros x Hx. destruct Hx.
  - intros x Hx. destruct Hx as [E | []]. left. exact E.
Defined.

(** X3: with an empty list of required modifier names the modifiers of a
    function cannot protect it: the outer [if] is entered for every
    function, and the flagged lines are those of all the entry points that
    are neither constructor nor view nor whitelisted. *)
Theorem no_required_names_flags_everything (c : Contract) (wl : list string) :
  (forall f, lacks_access_control [] f = true)
  /\ report c [] wl
     = header_line (Some c)
         :: map flagged_line
              (filter (fun f => negb (is_constructor f) && negb (view f)
                                && negb (contains wl (name f)))
                 (functions_entry_points c))
            ++ closing_lines
                 (filter (fun f => negb (is_constructor f) && negb (view f)
                                   && negb (contains wl (name f)))
                    (functions_entry_points c)).
Proof.
  assert (A : forall f, forallb (fun x : Modifier => negb (contains [] (modifier_str x)))
                          (modifiers f) = true).
  { intros f. apply forallb_forall. reflexivity. }
  split.
  - intros f. rewrite lacks_access_control_forallb. apply A.
  - rewrite report_is_expected. unfold expected_report, flagged_functions.
    rewrite (filter_ext (should_flag [] wl)
               (fun f => negb (is_constructor f) && negb (view f)
                         && negb (contains wl (name f)))).
    + reflexivity.
    + intros f. unfold should_flag. rewrite A. now rewrite andb_true_r.
Qed.

(** X4: the script's own call.  On any loaded project in which the lookup
    of [Vault] finds a contract, the call returns normally, leaves the
    project as it is and appends the report of that contract; its flagged
    functions are the entry points that are neither constructor nor view,
    have no modifier printing as [nonReentrant], and are not named as one
    of the five batch-swap functions. *)
Theorem main_on_loaded_vault (w : World) (c : Contract) :
  get_contract_from_name (contracts w) "Vault" = Some c ->
  let guards := ["nonReentrant"%string] in
  let exempt := ["batchSwapGivenIn"; "batchSwapGivenOut";
                 "queryBatchSwapGivenIn"; "queryBatchSwapGivenOut";
                 "queryBatchSwapHelper"]%string in
  main w
  = (Returned tt,
     {| contracts := contracts w;
        stdout := stdout w
                  ++ header_line (Some c)
                     :: map flagged_line (flagged_functions c guards exempt)
                        ++ closing_lines (flagged_functions c guards exempt) |})
  /\ (forall f,
         In f (flagged_functions c guards exempt)
         <-> In f (functions_entry_points c)
             /\ is_constructor f = false
             /\ view f = false
             /\ (forall x, In x (modifiers f) ->
                           modifier_str x <> "nonReentrant"%string)
             /\ ~ In (name f) exempt).
Proof.
  intros H guards exempt. split.
  - unfold main, invoke. rewrite H. apply check_returns_expected.
  - intros f. unfold flagged_functions. rewrite filter_In, should_flag_iff.
    unfold flag_condition. split.
    + intros [Hin [Hc [Hv [Hm Hn]]]]. repeat split; try assumption.
      intros x Hx E. apply (Hm x Hx). left. now symmetry.
    + intros [Hin [Hc [Hv [Hm Hn]]]]. repeat split; try assumption.
      intros x Hx [E | []]. apply (Hm x Hx). now symmetry.
Qed.

Lemma main_on_loaded_vault_witness :
  main Sample.loaded
  = (Returned tt,
     {| contracts := [Sample.Vault];
        stdout := [header_line (Some Sample.Vault);
                   flagged_line Sample.deposit] |}).
Proof.
  apply (main_on_loaded_vault Sample.loaded Sample.Vault).
  reflexivity.
Defined.

(** X5: the lines of a report can be told apart.  A header is never a
    flagged line or the [No bug found] line, a flagged line is never the
    [No bug found] line, and two flagged lines (two headers) are the same
    text only for the same canonical name (the same contract text). *)
Theorem report_lines_are_unambiguous (o : option Contract) (c d : Contract)
  (f g : Function) :
  (flagged_line f = flagged_line g <-> canonical_name f = canonical_name g)
  /\ (header_line (Some c) = header_line (Some d)
      <-> contract_str c = contract_str d)
  /\ header_line o <> flagged_line f
  /\ header_line o <> no_bug_line
  /\ flagged_line f <> no_bug_line.
Proof.
  split; [apply flagged_line_eq_iff |].
  split; [apply header_line_eq_iff |].
  split; [apply header_line_not_flagged |].
  split; [apply header_line_not_no_bug | apply flagged_line_not_no_bug].
Qed.

(** X6: what a report tells.  Two runs, on whatever contracts and lists,
    print the same report exactly when the two contracts print as the same
    text and the canonical names of their flagged functions are the same
    sequence. *)
Theorem report_eq_iff (c d : Contract) (mods mods' wl wl' : list string) :
  report c mods wl = report d mods' wl'
  <-> contract_str c = contract_str d
      /\ map canonical_name (flagged_functions c mods wl)
         = map canonical_name (flagged_functions d mods' wl').
Proof.
  rewrite !report_is_expected. unfold expected_report. cbv zeta.
  generalize (flagged_functions c mods wl) as fs.
  generalize (flagged_functions d mods' wl') as gs.
  intros gs fs. split.
  - intros H.
    assert (Hh : header_line (Some c) = header_line (Some d))
      by exact (f_equal (hd EmptyString) H).
    apply (f_equal (@tl string)) in H. simpl in H.
    split; [now apply header_line_eq_iff |].
    destruct fs as [| f fs]; destruct gs as [| g gs].
    + reflexivity.
    + exfalso. apply (f_equal (hd EmptyString)) in H. simpl in H.
      symmetry in H. now apply (flagged_line_not_no_bug g).
    + exfalso. apply (f_equal (hd EmptyString)) in H. simpl in H.
      now apply (flagged_line_not_no_bug f).
    + simpl closing_lines in H. rewrite !app_nil_r in H.
      now apply map_flagged_line_eq_iff.
  - intros [Hs Hn]. f_equal; [now apply header_line_eq_iff |].
    apply map_flagged_line_eq_iff in Hn. rewrite Hn.
    destruct fs as [| f fs]; destruct gs as [| g gs];
      try reflexivity; discriminate.
Qed.

(** X7: the loop keeps [no_bug_found] in step with what it has printed.
    From any starting value and world, the loop never raises, and its
    [no_bug_found] is [True] at the end exactly when it was [True] at the
    start and the loop printed nothing; started at [False] it ends at
    [False]. *)
Theorem no_bug_found_tracks_output (mods wl : list string)
  (fs : list Function) (nb : bool) (w : World) :
  (fst (for_each fs (loop_body mods wl) nb w) = Returned true
   <-> nb = true /\ snd (for_each fs (loop_body mods wl) nb w) = w)
  /\ fst (for_each fs (loop_body mods wl) false w) = Returned false
  /\ (exists b, fst (for_each fs (loop_body mods wl) nb w) = Returned b).
Proof.
  rewrite !for_each_loop_body. simpl.
  destruct (filter (should_flag mods wl) fs) as [| g gs].
  - simpl. rewrite emit_all_nil. split; [| split].
    + split; [intros H; split; [congruence | reflexivity] | intros [H _]; now subst].
    + reflexivity.
    + now exists nb.
  - split; [| split].
    + split; [discriminate |]. intros [_ H]. exfalso.
      now apply (emit_all_changes_world _ _ _ H).
    + reflexivity.
    + now exists false.
Qed.

(** X8: the size of a report.  It has one line more than there are flagged
    functions, and two lines when there are none; so it never has fewer
    than two lines, nor more than one line more than the contract has
    entry points (two for a contract without entry points). *)
Theorem report_length (c : Contract) (mods wl : list string) :
  List.length (report c mods wl)
  = 1 + Nat.max 1 (List.length (flagged_functions c mods wl))
  /\ 2 <= List.length (report c mods wl)
  /\ List.length (report c mods wl)
     <= 1 + Nat.max 1 (List.length (functions_entry_points c)).
Proof.
  rewrite report_is_expected. unfold expected_report, flagged_functions.
  cbv zeta. simpl List.length. rewrite List.length_app, length_map.
  pose proof (filter_length_le (should_flag mods wl) (functions_entry_points c))
    as L.
  destruct (filter (should_flag mods wl) (functions_entry_points c));
    unfold closing_lines; simpl List.length in *; lia.
Qed.

(** X9: the compliant functions can be left out.  The report of a contract
    is the report of the contract cut down to its flagged functions. *)
Theorem report_of_flagged_functions (c : Contract) (mods wl : list string) :
  report (mkContract (contract_name c) (contract_str c)
            (flagged_functions c mods wl)) mods wl
  = report c mods wl.
Proof.
  rewrite !report_is_expected. unfold expected_report, flagged_functions.
  simpl functions_entry_points.
  assert (E : filter (should_flag mods wl)
                (filter (should_flag mods wl) (functions_entry_points c))
              = filter (should_flag mods wl) (functions_entry_points c)).
  { apply forallb_filter_id, forallb_filter. }
  rewrite E. reflexivity.
Qed.
